(** * The Schluter polling coordinator

    A shallow embedding of
    [custom_components/schluter/__init__.py], class
    [SchluterDataUpdateCoordinator], method [_async_update_data].

    The method is a coroutine that talks to two operations of the
    [aioschluter] client ([async_get_sessionid] and
    [async_get_current_thermostats]) under an [async_timeout] guard and
    classifies their failures with [try]/[except].  It is embedded as a
    computation in a small monad that threads the coordinator object, the
    remote service, a millisecond clock and the log of the calls made,
    and that either yields a value or raises a Python exception. *)

From stdpp Require Import base strings gmap list.
From Stdlib Require Import NArith Lia.

Local Open Scope N_scope.

(** ** Exceptions

    The classes the method names, the two that [async_timeout] works
    with, and a catch-all.  An [except] clause catches the instances of
    its class, those of its subclasses included, so an exception is
    represented by the class it is caught as: [ClientConnectorError]
    stands for every instance of that class, a
    [ClientProxyConnectionError] or a [ClientConnectorSSLError] as well,
    and [OtherError] for the exceptions that are instances of none of
    the classes listed here.  The four classes of the handlers are
    unrelated by inheritance (each derives from [Exception] or from an
    aiohttp base class), so no exception is an instance of two of them.
    [ConfigEntryAuthFailed] and [UpdateFailed] are raised [from err];
    the constructor keeps that cause. *)

Inductive exn : Type :=
  | InvalidSessionIdError
  | InvalidUserPasswordError
  | ApiError
  | ClientConnectorError
  | TimeoutError
  | CancelledError
  | ConfigEntryAuthFailed (cause : exn)
  | UpdateFailed (cause : exn)
  | OtherError (name : string).

#[global] Instance exn_eq_dec : EqDecision exn.
Proof. solve_decision. Defined.

Inductive result (A : Type) : Type :=
  | Val (a : A)
  | Exc (e : exn).
Arguments Val {A} a.
Arguments Exc {A} e.

(** ** The remote service

    What one call of the client library does: it takes [took]
    milliseconds and then returns or raises. *)

Record response (A : Type) : Type := Response { took : N; gave : result A }.
Arguments Response {A} took gave.
Arguments took {A} r.
Arguments gave {A} r.

Definition token : Type := string.

(** What the coroutine saw at an [await]: the call's own result, or its
    cancellation by the timer of the enclosing [async_timeout] block. *)

Inductive observed (A : Type) : Type :=
  | Returned (a : A)
  | Raised (e : exn)
  | TimedOut.
Arguments Returned {A} a.
Arguments Raised {A} e.
Arguments TimedOut {A}.

(** [async_timeout.timeout]: the timer is idle outside the block, armed
    with its deadline inside, and fired once it has cancelled the task. *)

Inductive timer_state : Type :=
  | Idle
  | Armed (deadline : N)
  | Fired.

(** The attributes of the coordinator that the method reads and writes.
    [__init__] sets [_sessionid] to [None]. *)

Record SchluterDataUpdateCoordinator : Type := Coordinator {
  _username : string;
  _password : string;
  _sessionid : option token
}.

Definition __init__ (username password : string) : SchluterDataUpdateCoordinator :=
  {| _username := username; _password := password; _sessionid := None |}.

Definition set_sessionid (v : option token) (c : SchluterDataUpdateCoordinator)
  : SchluterDataUpdateCoordinator :=
  {| _username := _username c; _password := _password c; _sessionid := v |}.

(** The tick timeout of the source, [async_timeout.timeout(10)], in
    seconds, and the clock's unit. *)

Definition TIMEOUT_SECONDS : N := 10.
Definition seconds (n : N) : N := 1000 * n.

Section Coordinator.

(** [World] is the state of the remote service and of the network,
    [Reading] the per-device value of the snapshot ([Any] in the
    source). *)
Context {World Reading : Type}.

Variable async_get_sessionid :
  string -> string -> World -> response token * World.
Variable async_get_current_thermostats :
  option token -> World -> response (gmap string Reading) * World.

Inductive event : Type :=
  | GetSessionId (username password : string) (o : observed token)
  | GetCurrentThermostats (sessionid : option token)
                          (o : observed (gmap string Reading)).

Record state : Type := State {
  self : SchluterDataUpdateCoordinator;
  api : World;
  now : N;
  timer : timer_state;
  calls : list event
}.

(** *** The monad *)

Definition M (A : Type) : Type := state -> result A * state.

Definition ret {A} (a : A) : M A := fun s => (Val a, s).

Definition raise {A} (e : exn) : M A := fun s => (Exc e, s).

Definition bind {A B} (k : A -> M B) (m : M A) : M B :=
  fun s => match m s with
           | (Val a, s') => k a s'
           | (Exc e, s') => (Exc e, s')
           end.

(** stdpp's monad notations: [x ← m; k] and [m;; k]. *)
#[global] Instance M_ret : MRet M := @ret.
#[global] Instance M_bind : MBind M := @bind.

Definition get_self : M SchluterDataUpdateCoordinator :=
  fun s => (Val (self s), s).

Definition assign_sessionid (v : token) : M unit :=
  fun s => (Val tt, {| self := set_sessionid (Some v) (self s); api := api s;
                       now := now s; timer := timer s; calls := calls s |}).

(** [try: body except ...]: [handlers e] is the body of the first
    clause whose class matches [e], if any.  An exception raised inside
    a handler is not offered to the sibling clauses. *)
Definition try_except {A} (body : M A) (handlers : exn -> option (M A)) : M A :=
  fun s => match body s with
           | (Val a, s') => (Val a, s')
           | (Exc e, s') =>
               match handlers e with
               | Some h => h s'
               | None => (Exc e, s')
               end
           end.

(** What an [await] that is not cut short observes of a call. *)
Definition seen {A} (r : result A) : observed A :=
  match r with
  | Val a => Returned a
  | Exc e => Raised e
  end.

(** The state once a call has been logged as [ev], at time [t], with
    the timer in state [tm] and the service in state [w]. *)
Definition logged (ev : event) (t : N) (tm : timer_state) (w : World)
           (s : state) : state :=
  {| self := self s; api := w; now := t; timer := tm;
     calls := calls s ++ [ev] |}.

(** [await] of a call of the client library.  Under an armed timer, a
    call that would end after the deadline is cancelled at the
    deadline: the timer fires and [CancelledError] is raised at the
    [await]; a call that ends exactly at the deadline still delivers.
    Otherwise the call's own result is delivered when it ends.  The
    request has gone out either way, so the service moves on to the
    state the call brings it to. *)
Definition await {A} (call : World -> response A * World)
           (record : observed A -> event) : M A :=
  fun s =>
    let '(r, w) := call (api s) in
    let finish := now s + took r in
    match timer s with
    | Armed deadline =>
        if deadline <? finish
        then (Exc CancelledError, logged (record TimedOut) deadline Fired w s)
        else (gave r, logged (record (seen (gave r))) finish (timer s) w s)
    | _ => (gave r, logged (record (seen (gave r))) finish (timer s) w s)
    end.

Definition set_timer (t : timer_state) (s : state) : state :=
  {| self := self s; api := api s; now := now s; timer := t; calls := calls s |}.

(** [async with async_timeout.timeout(delay): body].  Entering arms the
    timer; leaving disarms it and, when the timer has fired and the
    body ends in [CancelledError], raises [TimeoutError] instead. *)
Definition async_timeout {A} (delay : N) (body : M A) : M A :=
  fun s =>
    match body (set_timer (Armed (now s + seconds delay)) s) with
    | (Exc CancelledError, s') =>
        match timer s' with
        | Fired => (Exc TimeoutError, set_timer Idle s')
        | _ => (Exc CancelledError, set_timer Idle s')
        end
    | (r, s') => (r, set_timer Idle s')
    end.

(** *** The method *)

Definition api_get_sessionid : M token :=
  c ← get_self;
  await (async_get_sessionid (_username c) (_password c))
        (GetSessionId (_username c) (_password c)).

Definition api_get_current_thermostats : M (gmap string Reading) :=
  c ← get_self;
  await (async_get_current_thermostats (_sessionid c))
        (GetCurrentThermostats (_sessionid c)).

(** The result is [Some snapshot] for [return await ...] and [None]
    when the method falls off its end. *)
Definition _async_update_data : M (option (gmap string Reading)) :=
  try_except
    (async_timeout TIMEOUT_SECONDS
       (c ← get_self;
        match _sessionid c with
        | None => sid ← api_get_sessionid; assign_sessionid sid
        | Some _ => ret tt
        end;;
        snapshot ← api_get_current_thermostats;
        ret (Some snapshot)))
    (fun err =>
       match err with
       | InvalidSessionIdError =>
           Some (try_except
                   (sid ← api_get_sessionid;
                    assign_sessionid sid;;
                    ret None)
                   (fun err' =>
                      match err' with
                      | InvalidUserPasswordError =>
                          Some (raise (ConfigEntryAuthFailed err'))
                      | ApiError | ClientConnectorError =>
                          Some (raise (UpdateFailed err'))
                      | _ => None
                      end))
       | InvalidUserPasswordError => Some (raise (ConfigEntryAuthFailed err))
       | ApiError | ClientConnectorError => Some (raise (UpdateFailed err))
       | _ => None
       end).

(** One tick: the method run on coordinator [c] against service state
    [w], starting at time [t0] with an idle timer and an empty log. *)
Definition entry (c : SchluterDataUpdateCoordinator) (w : World) (t0 : N)
  : state :=
  {| self := c; api := w; now := t0; timer := Idle; calls := [] |}.

Definition tick (c : SchluterDataUpdateCoordinator) (w : World) (t0 : N)
  : result (option (gmap string Reading)) * state :=
  _async_update_data (entry c w t0).

End Coordinator.

(** ** A scripted service

    A service whose replies are laid down in advance, one list per
    operation, consumed in order; an operation whose list has run out
    answers at once with [ApiError].  Readings are temperatures in tenths
    of a degree. *)

Module Scripted.

Record service : Type := Service {
  sessionid_replies : list (response token);
  thermostat_replies : list (response (gmap string Z))
}.

Definition get_sessionid (username password : string) (w : service)
  : response token * service :=
  match sessionid_replies w with
  | r :: rest =>
      (r, {| sessionid_replies := rest;
             thermostat_replies := thermostat_replies w |})
  | [] => (Response 0 (Exc ApiError), w)
  end.

Definition get_current_thermostats (sessionid : option token) (w : service)
  : response (gmap string Z) * service :=
  match thermostat_replies w with
  | r :: rest =>
      (r, {| sessionid_replies := sessionid_replies w;
             thermostat_replies := rest |})
  | [] => (Response 0 (Exc ApiError), w)
  end.

Definition tick := tick get_sessionid get_current_thermostats.

Definition fresh : SchluterDataUpdateCoordinator :=
  __init__ "user@example.com" "secret".

Definition holding (sid : token) : SchluterDataUpdateCoordinator :=
  set_sessionid (Some sid) fresh.

Definition device_1 : gmap string Z := {[ "device-1" := 215%Z ]}.

(** Replies. *)
Definition returns {A} (ms : N) (a : A) : response A := Response ms (Val a).
Definition raises {A} (ms : N) (e : exn) : response A := Response ms (Exc e).

(** Valid credentials, a healthy service. *)
Definition healthy : service :=
  {| sessionid_replies := [returns 300 "token-1"];
     thermostat_replies := [returns 200 device_1] |}.

(** The secret is wrong. *)
Definition wrong_secret : service :=
  {| sessionid_replies := [raises 300 InvalidUserPasswordError];
     thermostat_replies := [returns 200 device_1] |}.

(** The held token has expired; what the forced credential exchange
    answers varies. *)
Definition expired (exchange : response token) : service :=
  {| sessionid_replies := [exchange];
     thermostat_replies := [raises 1000 InvalidSessionIdError;
                            returns 200 device_1] |}.

(** The credential exchange takes eleven seconds. *)
Definition sluggish : service :=
  {| sessionid_replies := [returns 11000 "token-1"];
     thermostat_replies := [returns 200 device_1] |}.

(** The service cannot be reached, or answers with an error, or drops
    the connection while the fetch is under way. *)
Definition unreachable : service :=
  {| sessionid_replies := []; 
     thermostat_replies := [raises 50 ClientConnectorError] |}.

Definition failing : service :=
  {| sessionid_replies := [raises 50 ApiError];
     thermostat_replies := [] |}.

Definition dropping : service :=
  {| sessionid_replies := [];
     thermostat_replies := [raises 50 (OtherError "ServerDisconnectedError")] |}.

End Scripted.

(** ** Setting up and unloading a config entry

    [async_setup_entry] and [async_unload_entry] keep one [SchluterData]
    per config entry in [hass.data[DOMAIN]].  The host is reached through
    [hass]: its registry [data] is modelled as the nested dictionary it
    is, and the requests made of it are logged.  What an awaited host
    call answers is an argument of the function that awaits it; the two
    requests that are not awaited, [async_setup_platforms] and the
    registration of the update listener, return at once.
    [DOMAIN], [CONF_USERNAME] and [CONF_PASSWORD] are constants of
    modules that are imported, and stay parameters. *)

Definition KeyError : exn := OtherError "KeyError".

Module Integration.

Inductive Platform : Type := CLIMATE | SENSOR.

Definition PLATFORMS : list Platform := [CLIMATE; SENSOR].

(** [entry.entry_id] and [entry.data]. *)
Record ConfigEntry : Type := {
  entry_id : string;
  entry_data : gmap string string
}.

Section Host.

(** [Api] is the client object, [SchluterApi(websession)]. *)
Context {Api : Type}.
Variable DOMAIN : string.
Variables CONF_USERNAME CONF_PASSWORD : string.

(** The dataclass [SchluterData].  The coordinator is recorded as it is
    when the data is stored. *)
Record SchluterData : Type := {
  api : Api;
  coordinator : SchluterDataUpdateCoordinator
}.

Inductive request : Type :=
  | FirstRefresh (c : SchluterDataUpdateCoordinator)
  | SetupPlatforms (id : string) (platforms : list Platform)
  | AddUpdateListener (id : string)
  | UnloadPlatforms (id : string) (platforms : list Platform).

Record HomeAssistant : Type := {
  data : gmap string (gmap string SchluterData);
  requests : list request
}.

Definition Host (A : Type) : Type := HomeAssistant -> result A * HomeAssistant.

#[global] Instance Host_ret : MRet Host := fun A a hass => (Val a, hass).
#[global] Instance Host_bind : MBind Host :=
  fun A B k m hass =>
    match m hass with
    | (Val a, hass') => k a hass'
    | (Exc e, hass') => (Exc e, hass')
    end.

(** [d[key]] of a dictionary: [KeyError] when the key is missing. *)
Definition subscript {V} (d : gmap string V) (key : string) : Host V :=
  fun hass => match d !! key with
              | Some v => (Val v, hass)
              | None => (Exc KeyError, hass)
              end.

Definition get_data : Host (gmap string (gmap string SchluterData)) :=
  fun hass => (Val (data hass), hass).

Definition set_data (d : gmap string (gmap string SchluterData)) : Host unit :=
  fun hass => (Val tt, {| data := d; requests := requests hass |}).

(** A request made of the host, and what it answers. *)
Definition ask {A} (r : request) (answer : result A) : Host A :=
  fun hass => (answer, {| data := data hass; requests := requests hass ++ [r] |}).

(** [hass.data.setdefault(DOMAIN, {})[id] = value]. *)
Definition setdefault_and_store (id : string) (value : SchluterData) : Host unit :=
  d ← get_data;
  set_data (<[DOMAIN := <[id := value]> (default ∅ (d !! DOMAIN))]> d).

(** [hass.data[DOMAIN].pop(id)]: [KeyError] when [DOMAIN] or [id] is
    missing. *)
Definition pop_from_domain (id : string) : Host SchluterData :=
  d ← get_data;
  of_domain ← subscript d DOMAIN;
  value ← subscript of_domain id;
  set_data (<[DOMAIN := delete id of_domain]> d);;
  mret value.

Definition async_setup_entry (entry : ConfigEntry) (client : Api)
           (first_refresh : SchluterDataUpdateCoordinator ->
                            result SchluterDataUpdateCoordinator)
  : Host bool :=
  username ← subscript (entry_data entry) CONF_USERNAME;
  password ← subscript (entry_data entry) CONF_PASSWORD;
  let created := __init__ username password in
  refreshed ← ask (FirstRefresh created) (first_refresh created);
  let schluter_data := {| api := client; coordinator := refreshed |} in
  setdefault_and_store (entry_id entry) schluter_data;;
  ask (SetupPlatforms (entry_id entry) PLATFORMS) (Val tt);;
  ask (AddUpdateListener (entry_id entry)) (Val tt);;
  mret true.

Definition async_unload_entry (entry : ConfigEntry)
           (unload_platforms : result bool) : Host bool :=
  unload_ok ← ask (UnloadPlatforms (entry_id entry) PLATFORMS) unload_platforms;
  (if unload_ok : bool
   then pop_from_domain (entry_id entry);; mret tt
   else mret tt);;
  mret unload_ok.

(** [hass.data[DOMAIN][id]], the way the platforms find their data. *)
Definition registered (hass : HomeAssistant) (id : string) : option SchluterData :=
  data hass !! DOMAIN ≫= fun of_domain => of_domain !! id.

End Host.

(** A household with one account. *)
Definition account : ConfigEntry :=
  {| entry_id := "entry-1";
     entry_data := {[ "username" := "user@example.com";
                      "password" := "secret" ]} |}.

Definition account_without_password : ConfigEntry :=
  {| entry_id := "entry-2";
     entry_data := {[ "username" := "user@example.com" ]} |}.

Definition started : @HomeAssistant string := {| data := ∅; requests := [] |}.

Definition refresh_succeeds (c : SchluterDataUpdateCoordinator)
  : result SchluterDataUpdateCoordinator :=
  Val (set_sessionid (Some "token-1") c).


Definition setup := @async_setup_entry string "schluter" "username" "password".
Definition unload := @async_unload_entry string "schluter".
Definition lookup_entry := @registered string "schluter".

(** [started] with [account] set up. *)
Definition running : @HomeAssistant string :=
  (setup account "client" refresh_succeeds started).2.

End Integration.

(** ** What the handlers re-raise

    Both groups of [except] clauses turn [InvalidUserPasswordError] into
    [ConfigEntryAuthFailed] and [ApiError], [ClientConnectorError] into
    [UpdateFailed]; any other exception leaves the method as it is. *)

Definition reraised (e : exn) : exn :=
  match e with
  | InvalidUserPasswordError => ConfigEntryAuthFailed e
  | ApiError | ClientConnectorError => UpdateFailed e
  | _ => e
  end.

(** Whether an event is a call of the fetch operation, and the number of
    such calls in a log. *)

Definition is_fetch {Reading} (ev : @event Reading) : bool :=
  match ev with
  | GetCurrentThermostats _ _ => true
  | GetSessionId _ _ _ => false
  end.

Definition fetch_count {Reading} (log : list (@event Reading)) : nat :=
  length (filter (fun ev => is_fetch ev = true) log).

(** Whether an event is a call cut short by the timer. *)

Definition cut_short {Reading} (ev : @event Reading) : bool :=
  match ev with
  | GetSessionId _ _ TimedOut | GetCurrentThermostats _ TimedOut => true
  | _ => false
  end.

(** The documented failures of the credential exchange: invalid
    credentials, or a service or connection error. *)

Definition exchange_contract {Reading} (ev : @event Reading) : bool :=
  match ev with
  | GetSessionId _ _ (Raised e) =>
      match e with
      | InvalidUserPasswordError | ApiError | ClientConnectorError => true
      | _ => false
      end
  | _ => true
  end.

(** The exception a call raised, if it raised one, and the number of
    credential exchanges in a log. *)

Definition raised_by {Reading} (ev : @event Reading) : option exn :=
  match ev with
  | GetSessionId _ _ (Raised e) | GetCurrentThermostats _ (Raised e) => Some e
  | _ => None
  end.

Definition exchange_count {Reading} (log : list (@event Reading)) : nat :=
  length (filter (fun ev => is_fetch ev = false) log).

(** ** The paths through the method

    [guarded c r log held]: the [async_timeout] block, entered by
    coordinator [c], ends in [r] after the calls [log] and leaves the
    token [held].  [ticked] does the same for the whole method. *)

Section Paths.

Context {Reading : Type}.
Variable c : SchluterDataUpdateCoordinator.

#[local] Abbreviation exchange := (GetSessionId (_username c) (_password c)).

(** The calls made before the fetch, and the token it is given. *)
Inductive ensured : list (@event Reading) -> token -> Prop :=
  | ensured_held held :
      _sessionid c = Some held -> ensured [] held
  | ensured_fresh held :
      _sessionid c = None -> ensured [exchange (Returned held)] held.

Inductive guarded :
  result (option (gmap string Reading)) -> list (@event Reading) ->
  option token -> Prop :=
  | guarded_exchange_cut :
      _sessionid c = None ->
      guarded (Exc TimeoutError) [exchange TimedOut] None
  | guarded_exchange_raised e :
      _sessionid c = None ->
      guarded (Exc e) [exchange (Raised e)] None
  | guarded_fetch_cut pre held :
      ensured pre held ->
      guarded (Exc TimeoutError)
              (pre ++ [GetCurrentThermostats (Some held) TimedOut])
              (Some held)
  | guarded_fetch_raised pre held e :
      ensured pre held ->
      guarded (Exc e)
              (pre ++ [GetCurrentThermostats (Some held) (Raised e)])
              (Some held)
  | guarded_fetch_returned pre held snapshot :
      ensured pre held ->
      guarded (Val (Some snapshot))
              (pre ++ [GetCurrentThermostats (Some held) (Returned snapshot)])
              (Some held).

Inductive ticked :
  result (option (gmap string Reading)) -> list (@event Reading) ->
  option token -> Prop :=
  | ticked_returned v log held :
      guarded (Val v) log held ->
      ticked (Val v) log held
  | ticked_raised e log held :
      guarded (Exc e) log held -> e <> InvalidSessionIdError ->
      ticked (Exc (reraised e)) log held
  | ticked_reauthenticated log held sid :
      guarded (Exc InvalidSessionIdError) log held ->
      ticked (Val None) (log ++ [exchange (Returned sid)]) (Some sid)
  | ticked_reauthentication_raised log held e :
      guarded (Exc InvalidSessionIdError) log held ->
      ticked (Exc (reraised e)) (log ++ [exchange (Raised e)]) held.

End Paths.

Section Properties.

Context {World Reading : Type}.
Variable async_get_sessionid :
  string -> string -> World -> response token * World.
Variable async_get_current_thermostats :
  option token -> World -> response (gmap string Reading) * World.

#[local] Abbreviation tick :=
  (tick async_get_sessionid async_get_current_thermostats).
#[local] Abbreviation M := (@M World Reading).

Implicit Types (c : SchluterDataUpdateCoordinator) (w : World).
Implicit Types (s : @state World Reading) (log : list (@event Reading)).
Implicit Types (e : exn) (held : token) (sid : option token).

(** The block under the timer, and the handler of
    [InvalidSessionIdError], as they stand in the method. *)
Let block : M (option (gmap string Reading)) :=
  async_timeout TIMEOUT_SECONDS
    (c ← get_self;
     match _sessionid c with
     | None => sid ← api_get_sessionid async_get_sessionid; assign_sessionid sid
     | Some _ => ret tt
     end;;
     snapshot ← api_get_current_thermostats async_get_current_thermostats;
     ret (Some snapshot)).

Let reauthenticate : M (option (gmap string Reading)) :=
  try_except
    (sid ← api_get_sessionid async_get_sessionid;
     assign_sessionid sid;;
     ret None)
    (fun err' =>
       match err' with
       | InvalidUserPasswordError => Some (raise (ConfigEntryAuthFailed err'))
       | ApiError | ClientConnectorError => Some (raise (UpdateFailed err'))
       | _ => None
       end).

(** *** The combinators *)

Lemma await_cases {A} (call : World -> response A * World)
      (record : observed A -> event) (s : @state World Reading) :
  let r := (call (api s)).1 in
  let w := (call (api s)).2 in
  (∃ deadline, timer s = Armed deadline ∧ deadline < now s + took r ∧
     await call record s =
       (Exc CancelledError, logged (record TimedOut) deadline Fired w s))
  ∨ ((∀ deadline, timer s = Armed deadline → now s + took r ≤ deadline) ∧
     await call record s =
       (gave r, logged (record (seen (gave r))) (now s + took r) (timer s) w s)).
Proof.
  unfold await. destruct (call (api s)) as [r w]; simpl.
  destruct (timer s) as [|deadline|] eqn:Ht.
  - right. split; [intros; discriminate | reflexivity].
  - destruct (N.ltb_spec deadline (now s + took r)).
    + left. eauto.
    + right. split; [intros d [= <-]; assumption | reflexivity].
  - right. split; [intros; discriminate | reflexivity].
Qed.

(** *** The method follows one of the paths *)

Ltac step_await :=
  match goal with
  | |- context [await ?call ?record ?s] =>
      destruct (await_cases call record s) as [(? & ? & ? & ->) | [? ->]];
      simpl in *
  end.

Ltac run :=
  unfold try_except, async_timeout, api_get_sessionid,
    api_get_current_thermostats, mbind, M_bind, bind, get_self,
    assign_sessionid, ret, raise; simpl.

Lemma block_guarded c w t0 :
  let r := (block (entry c w t0)).1 in
  let s' := (block (entry c w t0)).2 in
  guarded c r (calls s') (_sessionid (self s')) ∧
  timer s' = Idle ∧
  _username (self s') = _username c ∧ _password (self s') = _password c.
Proof.
  unfold block, entry. run.
  destruct (_sessionid c) as [held|] eqn:Hc; simpl.
  - rewrite Hc. step_await.
    + rewrite Hc. split; [|done].
      apply (guarded_fetch_cut c [] held). by constructor.
    + destruct (gave _) as [snapshot|e] eqn:Hg; simpl.
      * rewrite Hc. split; [|done].
        apply (guarded_fetch_returned c [] held). by constructor.
      * assert (guarded (Reading:=Reading) c (Exc e)
                  [GetCurrentThermostats (Some held) (Raised e)] (_sessionid c)).
        { rewrite Hc. apply (guarded_fetch_raised c [] held). by constructor. }
        destruct e; simpl; done.
  - step_await.
    + rewrite Hc. split; [|done]. by constructor.
    + destruct (gave _) as [new|e] eqn:Hg; simpl.
      * assert (ensured (Reading:=Reading) c
                  [GetSessionId (_username c) (_password c) (Returned new)] new)
          by by constructor.
        step_await.
        -- split; [|done].
           by apply (guarded_fetch_cut c [_] new).
        -- destruct (gave (async_get_current_thermostats _ _).1)
             as [snapshot|e] eqn:Hf; simpl.
           ++ split; [|done].
              by apply (guarded_fetch_returned c [_] new).
           ++ assert (guarded c (Exc e)
                  [GetSessionId (_username c) (_password c) (Returned new);
                   GetCurrentThermostats (Some new) (Raised e)] (Some new))
                by by apply (guarded_fetch_raised c [_] new).
              destruct e; simpl; done.
      * assert (guarded (Reading:=Reading) c (Exc e)
                  [GetSessionId (_username c) (_password c) (Raised e)]
                  (_sessionid c)).
        { rewrite Hc. by constructor. }
        destruct e; simpl; done.
Qed.

Lemma reauthenticate_cases s :
  timer s = Idle →
  let exchange := GetSessionId (_username (self s)) (_password (self s)) in
  (∃ new s', reauthenticate s = (Val None, s') ∧
     calls s' = calls s ++ [exchange (Returned new)] ∧
     _sessionid (self s') = Some new)
  ∨ (∃ e s', reauthenticate s = (Exc (reraised e), s') ∧
     calls s' = calls s ++ [exchange (Raised e)] ∧
     _sessionid (self s') = _sessionid (self s)).
Proof.
  intros Hidle. unfold reauthenticate. run. step_await.
  - congruence.
  - destruct (gave _) as [new|e] eqn:Hg; simpl.
    + left. eauto.
    + right. exists e. destruct e; simpl; eauto.
Qed.

Lemma tick_unfold c w t0 :
  tick c w t0 =
  try_except block
    (fun err =>
       match err with
       | InvalidSessionIdError => Some reauthenticate
       | InvalidUserPasswordError => Some (raise (ConfigEntryAuthFailed err))
       | ApiError | ClientConnectorError => Some (raise (UpdateFailed err))
       | _ => None
       end)
    (entry c w t0).
Proof. reflexivity. Qed.

Lemma tick_ticked c w t0 :
  ticked c (tick c w t0).1 (calls (tick c w t0).2)
         (_sessionid (self (tick c w t0).2)).
Proof.
  rewrite tick_unfold. unfold try_except.
  destruct (block_guarded c w t0) as (Hg & Hidle & Hu & Hp).
  destruct (block (entry c w t0)) as [[v|e] s']; simpl in *.
  - by constructor.
  - destruct (decide (e = InvalidSessionIdError)) as [->|Hne].
    + destruct (reauthenticate_cases s' Hidle)
        as [(new & s'' & Hr & Hc & Hs) | (e' & s'' & Hr & Hc & Hs)];
        rewrite Hr; simpl; rewrite Hc, Hs, Hu, Hp; econstructor; eassumption.
    + apply (ticked_raised c e) in Hg; [|done].
      destruct e; simpl in *; done.
Qed.

(** *** Reading a path *)

(** Replace the tick of the goal by an arbitrary path of [c]. *)
Ltac on_path c w t0 :=
  let Ht := fresh "Ht" in
  pose proof (tick_ticked c w t0) as Ht; revert Ht;
  generalize (_sessionid (self (tick c w t0).2));
  generalize (calls (tick c w t0).2);
  generalize ((tick c w t0).1);
  intros ? ? ? Ht.

Ltac paths H :=
  inversion H; subst; clear H;
  repeat match goal with
         | G : guarded _ _ _ _ |- _ => inversion G; subst; clear G
         | E : ensured _ _ _ |- _ => inversion E; subst; clear E
         end;
  simpl in *.

(** Membership in, and decomposition of, the short logs of a path. *)
Ltac members :=
  rewrite ?elem_of_app, ?elem_of_cons, ?elem_of_nil in *;
  intuition (try discriminate; simplify_eq; try done).

Ltac member H :=
  rewrite ?elem_of_app, ?elem_of_cons, ?elem_of_nil in H;
  repeat match type of H with _ ∨ _ => destruct H as [H|H] end;
  try done; simplify_eq/=.

Ltac split_log pre :=
  destruct pre as [|? [|? [|? [|? ?]]]]; simplify_eq/=.

(** A tick entered with a token opens with the fetch, given that
    token; a tick entered without one opens with the credential
    exchange. *)
Lemma first_call_with_token c w t0 held :
  _sessionid c = Some held →
  ∃ o rest,
    calls (tick c w t0).2 = GetCurrentThermostats (Some held) o :: rest.
Proof.
  on_path c w t0. intros Hheld. paths Ht; simplify_eq/=; eauto.
Qed.

Lemma first_call_without_token c w t0 :
  _sessionid c = None →
  ∃ o rest,
    calls (tick c w t0).2
      = GetSessionId (_username c) (_password c) o :: rest.
Proof.
  on_path c w t0. intros Hnone. paths Ht; simplify_eq/=; eauto.
Qed.

(** The token held after a tick in which a credential exchange
    returned is one that such an exchange returned. *)
Lemma returned_token_stored c w t0 u p new :
  GetSessionId u p (Returned new) ∈ calls (tick c w t0).2 →
  ∃ u' p' held,
    _sessionid (self (tick c w t0).2) = Some held ∧
    GetSessionId u' p' (Returned held) ∈ calls (tick c w t0).2.
Proof.
  on_path c w t0. intros Hin.
  paths Ht; member Hin; do 3 eexists; (split; [done|]);
    rewrite ?elem_of_cons; eauto.
Qed.

(** Once the fetch has raised [InvalidSessionIdError], the tick ends with
    the forced credential exchange, which the timer never cuts short,
    and what leaves the method is decided by that exchange alone: an
    exception that escapes is one the exchange raised, not the fetch's. *)
Lemma expiry_settled_by_exchange c w t0 sid :
  GetCurrentThermostats sid (Raised InvalidSessionIdError)
    ∈ calls (tick c w t0).2 →
  ∃ u p o,
    last (calls (tick c w t0).2) = Some (GetSessionId u p o) ∧
    o ≠ TimedOut ∧
    (tick c w t0).1 = match o with
                      | Returned _ => Val None
                      | Raised e => Exc (reraised e)
                      | TimedOut => Exc TimeoutError
                      end.
Proof.
  on_path c w t0. intros Hin.
  paths Ht; member Hin; do 3 eexists; (split; [reflexivity|]); done.
Qed.

(** C1: in every tick whose fetch call returns a snapshot, which
    requires that a token was held or the initial credential exchange
    returned one, the method returns exactly that snapshot. *)
Theorem fetched_snapshot_returned c w t0 sid snapshot :
  GetCurrentThermostats sid (Returned snapshot) ∈ calls (tick c w t0).2 →
  (tick c w t0).1 = Val (Some snapshot).
Proof.
  on_path c w t0. intros Hin. paths Ht; members.
Qed.

(** C2: in every tick that starts without a token and whose credential
    exchange, its first call, raises [InvalidUserPasswordError], the
    method raises [ConfigEntryAuthFailed] and the fetch is not called. *)
Theorem invalid_credentials_fatal_without_fetch c w t0 u p :
  _sessionid c = None →
  head (calls (tick c w t0).2)
    = Some (GetSessionId u p (Raised InvalidUserPasswordError)) →
  (tick c w t0).1 = Exc (ConfigEntryAuthFailed InvalidUserPasswordError) ∧
  ∀ sid o, GetCurrentThermostats sid o ∉ calls (tick c w t0).2.
Proof.
  on_path c w t0. intros Hnone Hhead.
  paths Ht; simplify_eq/=; split; try done; intros sid o; members.
Qed.

(** C3: in every tick whose fetch raises [InvalidSessionIdError] and
    whose forced credential exchange then returns a token, the method
    raises nothing and the fetch is called exactly once. *)
Theorem reauthenticated_tick_is_silent c w t0 pre sid u p new :
  calls (tick c w t0).2
    = pre ++ [GetCurrentThermostats sid (Raised InvalidSessionIdError);
              GetSessionId u p (Returned new)] →
  (∃ v, (tick c w t0).1 = Val v) ∧
  fetch_count (calls (tick c w t0).2) = 1%nat.
Proof.
  on_path c w t0. intros Hlog.
  paths Ht; split_log pre; eauto.
Qed.

(** C4: in every tick whose fetch raises [InvalidSessionIdError] and
    whose forced credential exchange then raises
    [InvalidUserPasswordError], the method raises
    [ConfigEntryAuthFailed], and so not [UpdateFailed]. *)
Theorem reauthentication_invalid_credentials_fatal c w t0 pre sid u p :
  calls (tick c w t0).2
    = pre ++ [GetCurrentThermostats sid (Raised InvalidSessionIdError);
              GetSessionId u p (Raised InvalidUserPasswordError)] →
  (tick c w t0).1 = Exc (ConfigEntryAuthFailed InvalidUserPasswordError).
Proof.
  on_path c w t0. intros Hlog.
  paths Ht; split_log pre; eauto.
Qed.


(** C6, as the method has it: in every tick in which the timer of the
    [async_timeout] block cuts a call short, the method raises
    [TimeoutError] itself, which is neither [ConfigEntryAuthFailed] nor
    [UpdateFailed]. *)
Theorem timer_expiry_raises_timeout_error c w t0 ev :
  ev ∈ calls (tick c w t0).2 →
  cut_short ev = true →
  (tick c w t0).1 = Exc TimeoutError.
Proof.
  on_path c w t0. intros Hin Hcut.
  paths Ht; members; try (destruct e; simpl; done).
Qed.

(** C7, as the method has it: in every tick whose fetch raises
    [InvalidSessionIdError], a token was held at that point, and after
    the tick the coordinator holds the new token when the forced
    credential exchange returned one and still holds the expired token
    otherwise. *)
Theorem expired_token_kept_until_replaced c w t0 pre sid u p o :
  calls (tick c w t0).2
    = pre ++ [GetCurrentThermostats sid (Raised InvalidSessionIdError);
              GetSessionId u p o] →
  is_Some sid ∧
  _sessionid (self (tick c w t0).2)
    = match o with
      | Returned new => Some new
      | _ => sid
      end.
Proof.
  on_path c w t0. intros Hlog.
  paths Ht; split_log pre; eauto.
Qed.

(** C8, as the method has it: in every tick whose fetch raises
    [InvalidSessionIdError], that exception is caught and the tick ends
    with the forced credential exchange, which the timer does not cut
    short and whose result alone decides what leaves the method: [None]
    when it returns, [ConfigEntryAuthFailed] when it raises
    [InvalidUserPasswordError], [UpdateFailed] when it raises [ApiError]
    or [ClientConnectorError], and, when it raises anything else, that
    exception itself, unwrapped. *)
Theorem session_expired_absorbed_by_reauthentication c w t0 sid :
  GetCurrentThermostats sid (Raised InvalidSessionIdError)
    ∈ calls (tick c w t0).2 →
  ∃ u p o,
    last (calls (tick c w t0).2) = Some (GetSessionId u p o) ∧
    match o with
    | Returned _ => (tick c w t0).1 = Val None
    | Raised InvalidUserPasswordError =>
        (tick c w t0).1 = Exc (ConfigEntryAuthFailed InvalidUserPasswordError)
    | Raised ApiError => (tick c w t0).1 = Exc (UpdateFailed ApiError)
    | Raised ClientConnectorError =>
        (tick c w t0).1 = Exc (UpdateFailed ClientConnectorError)
    | Raised e => (tick c w t0).1 = Exc e
    | TimedOut => False
    end.
Proof.
  intros Hin.
  destruct (expiry_settled_by_exchange c w t0 sid Hin)
    as (u & p & o & Hlast & Hcut & Hout).
  exists u, p, o. split; [exact Hlast|].
  destruct o as [new|e|]; [exact Hout| |done].
  destruct e; exact Hout.
Qed.

(** With a credential exchange that fails only in its documented ways,
    such a tick returns normally or raises [ConfigEntryAuthFailed] or
    [UpdateFailed]; it does not raise [InvalidSessionIdError]. *)
Theorem session_expired_never_reaches_host c w t0 sid :
  GetCurrentThermostats sid (Raised InvalidSessionIdError)
    ∈ calls (tick c w t0).2 →
  forallb exchange_contract (calls (tick c w t0).2) = true →
  ((tick c w t0).1 = Val None ∨
   (∃ cause, (tick c w t0).1 = Exc (ConfigEntryAuthFailed cause)) ∨
   (∃ cause, (tick c w t0).1 = Exc (UpdateFailed cause))) ∧
  (tick c w t0).1 ≠ Exc InvalidSessionIdError.
Proof.
  on_path c w t0. intros Hin Hcontract.
  paths Ht; member Hin;
    match goal with
    | e : exn |- _ => destruct e; try discriminate; simpl; eauto 6
    | _ => eauto
    end.
Qed.

(** C9: after a tick in which a credential exchange returned a token,
    the coordinator holds such a token, and the next tick, whatever the
    service does and whenever it runs, opens with the fetch, given that
    token: no credential exchange comes before it.  A tick opens with a
    credential exchange only when no token is held. *)
Theorem held_token_reused_by_next_tick c w t0 u p new :
  GetSessionId u p (Returned new) ∈ calls (tick c w t0).2 →
  (∃ u' p' held,
     _sessionid (self (tick c w t0).2) = Some held ∧
     GetSessionId u' p' (Returned held) ∈ calls (tick c w t0).2 ∧
     ∀ w' t', ∃ o rest,
       calls (tick (self (tick c w t0).2) w' t').2
         = GetCurrentThermostats (Some held) o :: rest) ∧
  (∀ c' w' t' u' p' o,
     head (calls (tick c' w' t').2) = Some (GetSessionId u' p' o) →
     _sessionid c' = None).
Proof.
  intros Hin. split.
  - destruct (returned_token_stored _ _ _ _ _ _ Hin)
      as (u' & p' & held & Hheld & Hret).
    exists u', p', held. repeat split; [done..|].
    intros w' t'. by apply first_call_with_token.
  - intros c' w' t' u' p' o Hhead.
    destruct (_sessionid c') as [held|] eqn:Hc'; [|done].
    destruct (first_call_with_token c' w' t' held Hc') as (o' & rest & Hlog).
    rewrite Hlog in Hhead. discriminate.
Qed.

(** C10: in every tick whose fetch raises [InvalidSessionIdError] and
    whose forced credential exchange then returns a token, the method
    falls off its end: it returns [None], not a snapshot. *)
Theorem reauthenticated_tick_returns_none c w t0 pre sid u p new :
  calls (tick c w t0).2
    = pre ++ [GetCurrentThermostats sid (Raised InvalidSessionIdError);
              GetSessionId u p (Returned new)] →
  (tick c w t0).1 = Val None.
Proof.
  on_path c w t0. intros Hlog.
  paths Ht; split_log pre; eauto.
Qed.

(** *** Further properties of the method *)

(** The credentials of the coordinator are read, never written, and a
    tick leaves the timer idle. *)
Lemma reauthenticate_keeps_credentials s :
  _username (self (reauthenticate s).2) = _username (self s) ∧
  _password (self (reauthenticate s).2) = _password (self s).
Proof.
  unfold reauthenticate. run. step_await; [done|].
  destruct (gave _) as [new|e]; simpl; [done|].
  destruct e; simpl; done.
Qed.

Lemma tick_keeps_credentials c w t0 :
  _username (self (tick c w t0).2) = _username c ∧
  _password (self (tick c w t0).2) = _password c.
Proof.
  rewrite tick_unfold. unfold try_except.
  destruct (block_guarded c w t0) as (_ & _ & Hu & Hp).
  destruct (block (entry c w t0)) as [[v|e] s']; simpl in *; [done|].
  destruct e; simpl; try done.
  destruct (reauthenticate_keeps_credentials s') as [Hu' Hp'].
  by rewrite Hu', Hp'.
Qed.

(** A fetch that fails with [ApiError] or [ClientConnectorError] ends the
    tick: the method raises [UpdateFailed] from it, the failing fetch is
    the last call of the tick, so that no credential exchange follows
    it, and the token the fetch was given stays held. *)
Theorem fetch_service_error_retryable c w t0 sid e :
  GetCurrentThermostats sid (Raised e) ∈ calls (tick c w t0).2 →
  e = ApiError ∨ e = ClientConnectorError →
  (tick c w t0).1 = Exc (UpdateFailed e) ∧
  last (calls (tick c w t0).2) = Some (GetCurrentThermostats sid (Raised e)) ∧
  _sessionid (self (tick c w t0).2) = sid.
Proof.
  on_path c w t0. intros Hin He.
  paths Ht; member Hin; destruct He; simplify_eq/=; done.
Qed.

(** An initial credential exchange that fails with [ApiError] or
    [ClientConnectorError] ends the tick: the method raises
    [UpdateFailed] from it, the fetch is not called, and no token is
    held afterwards. *)
Theorem exchange_service_error_retryable c w t0 u p e :
  head (calls (tick c w t0).2) = Some (GetSessionId u p (Raised e)) →
  e = ApiError ∨ e = ClientConnectorError →
  (tick c w t0).1 = Exc (UpdateFailed e) ∧
  fetch_count (calls (tick c w t0).2) = 0%nat ∧
  _sessionid (self (tick c w t0).2) = None.
Proof.
  on_path c w t0. intros Hhead He.
  paths Ht; simplify_eq/=; destruct He; simplify_eq/=; done.
Qed.

(** An exception that no [except] clause catches, being an instance of
    none of the four classes they name nor of a subclass of one, leaves
    the method as the last call raised it, neither swallowed nor
    wrapped. *)
Theorem unnamed_exception_passes_through c w t0 ev e :
  last (calls (tick c w t0).2) = Some ev →
  raised_by ev = Some e →
  e ≠ InvalidSessionIdError → e ≠ InvalidUserPasswordError →
  e ≠ ApiError → e ≠ ClientConnectorError →
  (tick c w t0).1 = Exc e.
Proof.
  on_path c w t0. intros Hlast Hev H1 H2 H3 H4.
  paths Ht; simplify_eq/=; destruct e; simpl; done.
Qed.

(** A tick makes at least one call and at most three: at most one fetch
    and at most two credential exchanges. *)
Theorem calls_per_tick_bounded c w t0 :
  (1 ≤ length (calls (tick c w t0).2) ≤ 3)%nat ∧
  (fetch_count (calls (tick c w t0).2) ≤ 1)%nat ∧
  (exchange_count (calls (tick c w t0).2) ≤ 2)%nat.
Proof.
  on_path c w t0. paths Ht; vm_compute; lia.
Qed.

(** Every credential exchange of a tick is made with the username and
    password of the coordinator, and the tick leaves both unchanged. *)
Theorem credentials_passed_unchanged c w t0 :
  (∀ u p o, GetSessionId u p o ∈ calls (tick c w t0).2 →
            u = _username c ∧ p = _password c) ∧
  _username (self (tick c w t0).2) = _username c ∧
  _password (self (tick c w t0).2) = _password c.
Proof.
  split; [|apply tick_keeps_credentials].
  on_path c w t0. intros u p obs Hin. paths Ht; member Hin; done.
Qed.

(** A token, once held, is never given up: after the tick the
    coordinator holds either the same token or one that a credential
    exchange of this tick returned. *)
Theorem token_never_given_up c w t0 held :
  _sessionid c = Some held →
  _sessionid (self (tick c w t0).2) = Some held ∨
  ∃ u p new,
    GetSessionId u p (Returned new) ∈ calls (tick c w t0).2 ∧
    _sessionid (self (tick c w t0).2) = Some new.
Proof.
  on_path c w t0. intros Hheld.
  paths Ht; simplify_eq/=; eauto.
  all: right; do 3 eexists; (split; [|reflexivity]);
    rewrite !elem_of_cons; eauto.
Qed.

(** The fetch is never called without a token: it is given the token
    held on entry or, when none was held, the one the initial credential
    exchange has just returned. *)
Theorem fetch_given_held_token c w t0 sid o :
  GetCurrentThermostats sid o ∈ calls (tick c w t0).2 →
  ∃ held,
    sid = Some held ∧
    (_sessionid c = Some held ∨
     _sessionid c = None ∧
     ∃ u p, head (calls (tick c w t0).2)
              = Some (GetSessionId u p (Returned held))).
Proof.
  on_path c w t0. intros Hin.
  paths Ht; member Hin; eexists; (split; [reflexivity|]); eauto.
Qed.

(** A snapshot is returned only as the result of the tick's last call, a
    fetch, and the coordinator then holds the token that fetch was given. *)
Theorem snapshot_comes_from_last_call c w t0 snapshot :
  (tick c w t0).1 = Val (Some snapshot) →
  ∃ held,
    last (calls (tick c w t0).2)
      = Some (GetCurrentThermostats (Some held) (Returned snapshot)) ∧
    _sessionid (self (tick c w t0).2) = Some held.
Proof.
  on_path c w t0. intros Hval.
  paths Ht; simplify_eq/=; eauto.
Qed.

(** [None] is returned only by a tick that re-authenticated: its last
    call is a credential exchange that returned a token, now held, and
    the call before it raised [InvalidSessionIdError]. *)
Theorem none_only_after_reauthentication c w t0 :
  (tick c w t0).1 = Val None →
  ∃ pre ev u p new,
    calls (tick c w t0).2 = pre ++ [ev; GetSessionId u p (Returned new)] ∧
    raised_by ev = Some InvalidSessionIdError ∧
    _sessionid (self (tick c w t0).2) = Some new.
Proof.
  on_path c w t0. intros Hval.
  paths Ht; simplify_eq/=.
  - by exists [], (GetSessionId (_username c) (_password c)
                     (Raised InvalidSessionIdError)), (_username c),
              (_password c), sid.
  - by exists [], (GetCurrentThermostats (Some held0)
                     (Raised InvalidSessionIdError)), (_username c),
              (_password c), sid.
  - by exists [GetSessionId (_username c) (_password c) (Returned held0)],
              (GetCurrentThermostats (Some held0)
                 (Raised InvalidSessionIdError)), (_username c),
              (_password c), sid.
Qed.

(** [ConfigEntryAuthFailed] is raised only when the last call of the
    tick raised [InvalidUserPasswordError], which is then its cause, or
    raised that very exception. *)
Theorem auth_failure_only_from_invalid_credentials c w t0 cause :
  (tick c w t0).1 = Exc (ConfigEntryAuthFailed cause) →
  ∃ ev,
    last (calls (tick c w t0).2) = Some ev ∧
    (raised_by ev = Some InvalidUserPasswordError ∧
       cause = InvalidUserPasswordError ∨
     raised_by ev = Some (ConfigEntryAuthFailed cause)).
Proof.
  on_path c w t0. intros Hexc.
  paths Ht; try discriminate;
    match goal with
    | H : Exc (reraised ?e) = _ |- _ =>
        destruct e; simpl in H; simplify_eq
    end.
  all: eexists; split; [reflexivity | simpl; eauto].
Qed.

(** When the fetch reports the session expired and the forced credential
    exchange fails, the next tick, whatever the service does and whenever
    it runs, opens with the fetch, given the same expired token. *)
Theorem expired_token_retried_by_next_tick c w t0 pre sid u p e :
  calls (tick c w t0).2
    = pre ++ [GetCurrentThermostats sid (Raised InvalidSessionIdError);
              GetSessionId u p (Raised e)] →
  ∀ w' t', ∃ o rest,
    calls (tick (self (tick c w t0).2) w' t').2
      = GetCurrentThermostats sid o :: rest.
Proof.
  intros Hlog w' t'.
  destruct (expired_token_kept_until_replaced _ _ _ _ _ _ _ _ Hlog)
    as [[held ->] Hkept]; simpl in Hkept.
  by apply first_call_with_token.
Qed.

(** The first tick of a coordinator as [__init__] leaves it opens with a
    credential exchange, made with the username and password given to
    the constructor. *)
Theorem first_tick_authenticates username password w t0 :
  ∃ o rest,
    calls (tick (__init__ username password) w t0).2
      = GetSessionId username password o :: rest.
Proof. by apply (first_call_without_token (__init__ username password)). Qed.

(** The block under the timer never runs past its deadline. *)
Lemma block_within_deadline c w t0 :
  t0 ≤ now (block (entry c w t0)).2 ≤ t0 + seconds TIMEOUT_SECONDS.
Proof.
  unfold block, entry. run.
  destruct (_sessionid c) as [held|] eqn:Hc; simpl.
  - step_await; simplify_eq; [lia|].
    match goal with H : ∀ d, _ → _ |- _ => specialize (H _ eq_refl) end.
    destruct (gave _) as [snapshot|e]; simpl; [lia|].
    destruct e; simpl; lia.
  - step_await; simplify_eq; [lia|].
    match goal with H : ∀ d, _ → _ |- _ => specialize (H _ eq_refl) end.
    destruct (gave _) as [new|e]; simpl.
    + step_await; simplify_eq; [lia|].
      match goal with H : ∀ d, Armed _ = _ → _ + took (_ _ (_ _ _ _).2).1 ≤ _ |- _ =>
        specialize (H _ eq_refl) end.
      destruct (gave (async_get_current_thermostats _ _).1) as [snapshot|e];
        simpl; [lia|].
      destruct e; simpl; lia.
    + destruct e; simpl; lia.
Qed.

(** A tick that returns a snapshot has taken no longer than the timeout,
    the initial credential exchange included. *)
Theorem snapshot_within_timeout c w t0 snapshot :
  (tick c w t0).1 = Val (Some snapshot) →
  t0 ≤ now (tick c w t0).2 ≤ t0 + seconds TIMEOUT_SECONDS.
Proof.
  rewrite tick_unfold. unfold try_except.
  pose proof (block_within_deadline c w t0) as Htime.
  destruct (block_guarded c w t0) as (_ & Hidle & _).
  destruct (block (entry c w t0)) as [[v|e] s']; simpl in *; [done|].
  destruct e; simpl; try discriminate.
  destruct (reauthenticate_cases s' Hidle)
    as [(new & s'' & -> & _) | (e' & s'' & -> & _)]; discriminate.
Qed.

End Properties.

(** ** The registry of config entries *)

Section Registry.

Import Integration.

Context {Api : Type}.
Variable DOMAIN : string.
Variables CONF_USERNAME CONF_PASSWORD : string.

#[local] Abbreviation async_setup_entry :=
  (async_setup_entry (Api:=Api) DOMAIN CONF_USERNAME CONF_PASSWORD).
#[local] Abbreviation async_unload_entry :=
  (async_unload_entry (Api:=Api) DOMAIN).
#[local] Abbreviation registered := (registered (Api:=Api) DOMAIN).

Implicit Types (hass : @HomeAssistant Api) (entry : ConfigEntry).
Implicit Types (client : Api) (id username password : string).

Ltac host :=
  unfold Integration.async_setup_entry, Integration.async_unload_entry,
    pop_from_domain, setdefault_and_store, subscript, ask, get_data, set_data,
    Integration.registered, mbind, mret, Host_bind, Host_ret;
  simpl.

(** With both credentials in the entry and a first refresh that
    succeeds, setup returns [True], stores the client and the refreshed
    coordinator under the entry's id, and asks the host, in this order,
    for the first refresh, the platforms and the update listener. *)
Theorem setup_registers_entry hass entry client first_refresh
        username password refreshed :
  entry_data entry !! CONF_USERNAME = Some username →
  entry_data entry !! CONF_PASSWORD = Some password →
  first_refresh (__init__ username password) = Val refreshed →
  (async_setup_entry entry client first_refresh hass).1 = Val true ∧
  registered (async_setup_entry entry client first_refresh hass).2
             (entry_id entry)
    = Some {| api := client; coordinator := refreshed |} ∧
  requests (async_setup_entry entry client first_refresh hass).2
    = requests hass ++ [FirstRefresh (__init__ username password);
                        SetupPlatforms (entry_id entry) PLATFORMS;
                        AddUpdateListener (entry_id entry)].
Proof.
  intros Hu Hp Hr. host. rewrite Hu; simpl. rewrite Hp; simpl.
  rewrite Hr; simpl. repeat split.
  - by simplify_map_eq.
  - by rewrite <- !app_assoc.
Qed.


(** An entry that lacks the username or the password makes setup raise
    [KeyError] before anything is asked of the host or stored. *)
Theorem setup_missing_credentials hass entry client first_refresh :
  entry_data entry !! CONF_USERNAME = None ∨
  entry_data entry !! CONF_PASSWORD = None →
  async_setup_entry entry client first_refresh hass = (Exc KeyError, hass).
Proof.
  intros [Hu|Hp]; host.
  - by rewrite Hu.
  - destruct (entry_data entry !! CONF_USERNAME); simpl; [|done].
    by rewrite Hp.
Qed.


(** Unloading a registered entry whose platforms unload returns [True]
    and removes the data of that entry and of no other. *)
Theorem unload_removes_entry hass entry stored :
  registered hass (entry_id entry) = Some stored →
  (async_unload_entry entry (Val true) hass).1 = Val true ∧
  registered (async_unload_entry entry (Val true) hass).2 (entry_id entry)
    = None ∧
  (∀ id, id ≠ entry_id entry →
     registered (async_unload_entry entry (Val true) hass).2 id
       = registered hass id) ∧
  (∀ domain, domain ≠ DOMAIN →
     data (async_unload_entry entry (Val true) hass).2 !! domain
       = data hass !! domain).
Proof.
  unfold Integration.registered. intros Hreg. host.
  destruct (data hass !! DOMAIN) as [of_domain|] eqn:Hd; simpl in *; [|done].
  rewrite Hreg; simpl. repeat split.
  - by simplify_map_eq.
  - intros id Hid. by simplify_map_eq.
  - intros domain Hdomain. by simplify_map_eq.
Qed.

(** When the platforms do not unload, by answering [False] or by
    raising, the answer is passed on and the registry is left as it is. *)
Theorem unload_refused_keeps_registry hass entry unload_platforms :
  unload_platforms ≠ Val true →
  (async_unload_entry entry unload_platforms hass).1 = unload_platforms ∧
  data (async_unload_entry entry unload_platforms hass).2 = data hass.
Proof.
  intros Hno. host. destruct unload_platforms as [[|]|e]; simpl; done.
Qed.

(** Unloading an entry that is not registered, once its platforms have
    unloaded, raises [KeyError] and leaves the registry as it is. *)
Theorem unload_unregistered_raises hass entry :
  registered hass (entry_id entry) = None →
  (async_unload_entry entry (Val true) hass).1 = Exc KeyError ∧
  data (async_unload_entry entry (Val true) hass).2 = data hass.
Proof.
  unfold Integration.registered. intros Hreg. host.
  destruct (data hass !! DOMAIN) as [of_domain|] eqn:Hd; simpl in *; [|done].
  by rewrite Hreg.
Qed.


End Registry.

(** ** The properties on the scripted service *)

Section Scenarios.

Import Scripted.

Lemma fetched_snapshot_returned_witness :
  GetCurrentThermostats (Some "token-1") (Returned device_1)
    ∈ calls (Scripted.tick fresh healthy 0).2 ∧
  (Scripted.tick fresh healthy 0).1 = Val (Some device_1).
Proof.
  assert (GetCurrentThermostats (Some "token-1") (Returned device_1)
            ∈ calls (Scripted.tick fresh healthy 0).2) as Hin
    by (vm_compute; repeat constructor).
  split; [exact Hin|].
  exact (fetched_snapshot_returned _ _ _ _ _ _ _ Hin).
Defined.

Lemma invalid_credentials_fatal_without_fetch_witness :
  _sessionid fresh = None ∧
  head (calls (Scripted.tick fresh wrong_secret 0).2)
    = Some (GetSessionId "user@example.com" "secret"
              (Raised InvalidUserPasswordError)) ∧
  (Scripted.tick fresh wrong_secret 0).1
    = Exc (ConfigEntryAuthFailed InvalidUserPasswordError) ∧
  ∀ sid o,
    GetCurrentThermostats sid o ∉ calls (Scripted.tick fresh wrong_secret 0).2.
Proof.
  split; [reflexivity|]. split; [reflexivity|].
  apply (invalid_credentials_fatal_without_fetch
           get_sessionid get_current_thermostats fresh wrong_secret 0
           "user@example.com" "secret"); reflexivity.
Defined.

Lemma reauthenticated_tick_is_silent_witness :
  calls (Scripted.tick (holding "stale") (expired (returns 400 "token-2")) 0).2
    = [] ++ [GetCurrentThermostats (Some "stale") (Raised InvalidSessionIdError);
             GetSessionId "user@example.com" "secret" (Returned "token-2")] ∧
  (∃ v, (Scripted.tick (holding "stale")
           (expired (returns 400 "token-2")) 0).1 = Val v) ∧
  fetch_count (calls (Scripted.tick (holding "stale")
                        (expired (returns 400 "token-2")) 0).2) = 1%nat.
Proof.
  split; [reflexivity|].
  apply (reauthenticated_tick_is_silent
           get_sessionid get_current_thermostats (holding "stale")
           (expired (returns 400 "token-2")) 0 [] (Some "stale")
           "user@example.com" "secret" "token-2"); reflexivity.
Defined.

Lemma reauthentication_invalid_credentials_fatal_witness :
  calls (Scripted.tick (holding "stale")
           (expired (raises 400 InvalidUserPasswordError)) 0).2
    = [] ++ [GetCurrentThermostats (Some "stale") (Raised InvalidSessionIdError);
             GetSessionId "user@example.com" "secret"
               (Raised InvalidUserPasswordError)] ∧
  (Scripted.tick (holding "stale")
     (expired (raises 400 InvalidUserPasswordError)) 0).1
    = Exc (ConfigEntryAuthFailed InvalidUserPasswordError).
Proof.
  split; [reflexivity|].
  apply (reauthentication_invalid_credentials_fatal
           get_sessionid get_current_thermostats (holding "stale")
           (expired (raises 400 InvalidUserPasswordError)) 0 [] (Some "stale")
           "user@example.com" "secret"); reflexivity.
Defined.


Lemma timer_expiry_raises_timeout_error_witness :
  GetSessionId "user@example.com" "secret" TimedOut
    ∈ calls (Scripted.tick fresh sluggish 0).2 ∧
  cut_short (Reading:=Z) (GetSessionId "user@example.com" "secret" TimedOut)
    = true ∧
  (Scripted.tick fresh sluggish 0).1 = Exc TimeoutError.
Proof.
  assert (GetSessionId "user@example.com" "secret" TimedOut
            ∈ calls (Scripted.tick fresh sluggish 0).2) as Hin
    by (vm_compute; repeat constructor).
  split; [exact Hin|]. split; [reflexivity|].
  exact (timer_expiry_raises_timeout_error _ _ _ _ _ _ Hin eq_refl).
Defined.

(** The timer does not cover the forced credential exchange: a tick
    that lasts sixty-one seconds ends without any exception.  And where
    the timer does expire, what is raised is [TimeoutError], not
    [UpdateFailed]. *)
Lemma timeout_not_update_failed_counterexample :
  (seconds TIMEOUT_SECONDS
     < now (Scripted.tick (holding "stale")
              (expired (returns 60000 "token-2")) 0).2 - 0 ∧
   (Scripted.tick (holding "stale")
      (expired (returns 60000 "token-2")) 0).1 = Val None) ∧
  (calls (Scripted.tick fresh sluggish 0).2
     = [GetSessionId "user@example.com" "secret" TimedOut] ∧
   (Scripted.tick fresh sluggish 0).1 = Exc TimeoutError ∧
   ¬ ∃ cause, (Scripted.tick fresh sluggish 0).1 = Exc (UpdateFailed cause)).
Proof.
  repeat split; try reflexivity.
  intros [cause Hcause]. vm_compute in Hcause. discriminate.
Qed.

Lemma expired_token_kept_until_replaced_witness :
  calls (Scripted.tick (holding "stale") (expired (returns 400 "token-2")) 0).2
    = [] ++ [GetCurrentThermostats (Some "stale") (Raised InvalidSessionIdError);
             GetSessionId "user@example.com" "secret" (Returned "token-2")] ∧
  is_Some (Some "stale") ∧
  _sessionid (self (Scripted.tick (holding "stale")
                      (expired (returns 400 "token-2")) 0).2)
    = Some "token-2".
Proof.
  split; [reflexivity|].
  apply (expired_token_kept_until_replaced
           get_sessionid get_current_thermostats (holding "stale")
           (expired (returns 400 "token-2")) 0 [] (Some "stale")
           "user@example.com" "secret" (Returned "token-2")); reflexivity.
Defined.

(** The fetch reports the session expired and the forced credential
    exchange fails: the expired token is still held after the tick. *)
Lemma expired_token_not_discarded_counterexample :
  calls (Scripted.tick (holding "stale") (expired (raises 400 ApiError)) 0).2
    = [GetCurrentThermostats (Some "stale") (Raised InvalidSessionIdError);
       GetSessionId "user@example.com" "secret" (Raised ApiError)] ∧
  (Scripted.tick (holding "stale") (expired (raises 400 ApiError)) 0).1
    = Exc (UpdateFailed ApiError) ∧
  _sessionid (self (Scripted.tick (holding "stale")
                      (expired (raises 400 ApiError)) 0).2)
    = Some "stale" ∧
  _sessionid (self (Scripted.tick (holding "stale")
                      (expired (raises 400 ApiError)) 0).2)
    ≠ None.
Proof. repeat split; try reflexivity. discriminate. Qed.

Lemma session_expired_never_reaches_host_witness :
  GetCurrentThermostats (Some "stale") (Raised InvalidSessionIdError)
    ∈ calls (Scripted.tick (holding "stale")
               (expired (raises 400 ClientConnectorError)) 0).2 ∧
  forallb exchange_contract
    (calls (Scripted.tick (holding "stale")
              (expired (raises 400 ClientConnectorError)) 0).2) = true ∧
  ((Scripted.tick (holding "stale")
      (expired (raises 400 ClientConnectorError)) 0).1 = Val None ∨
   (∃ cause,
      (Scripted.tick (holding "stale")
         (expired (raises 400 ClientConnectorError)) 0).1
        = Exc (ConfigEntryAuthFailed cause)) ∨
   (∃ cause,
      (Scripted.tick (holding "stale")
         (expired (raises 400 ClientConnectorError)) 0).1
        = Exc (UpdateFailed cause))) ∧
  (Scripted.tick (holding "stale")
     (expired (raises 400 ClientConnectorError)) 0).1
    ≠ Exc InvalidSessionIdError.
Proof.
  assert (GetCurrentThermostats (Some "stale") (Raised InvalidSessionIdError)
            ∈ calls (Scripted.tick (holding "stale")
                       (expired (raises 400 ClientConnectorError)) 0).2)
    as Hin by (vm_compute; repeat constructor).
  split; [exact Hin|]. split; [reflexivity|].
  exact (session_expired_never_reaches_host _ _ _ _ _ _ Hin eq_refl).
Defined.

Lemma session_expired_absorbed_by_reauthentication_witness :
  GetCurrentThermostats (Some "stale") (Raised InvalidSessionIdError)
    ∈ calls (Scripted.tick (holding "stale")
               (expired (raises 400 InvalidUserPasswordError)) 0).2 ∧
  ∃ u p o,
    last (calls (Scripted.tick (holding "stale")
                   (expired (raises 400 InvalidUserPasswordError)) 0).2)
      = Some (GetSessionId u p o) ∧
    match o with
    | Returned _ =>
        (Scripted.tick (holding "stale")
           (expired (raises 400 InvalidUserPasswordError)) 0).1 = Val None
    | Raised InvalidUserPasswordError =>
        (Scripted.tick (holding "stale")
           (expired (raises 400 InvalidUserPasswordError)) 0).1
          = Exc (ConfigEntryAuthFailed InvalidUserPasswordError)
    | Raised ApiError =>
        (Scripted.tick (holding "stale")
           (expired (raises 400 InvalidUserPasswordError)) 0).1
          = Exc (UpdateFailed ApiError)
    | Raised ClientConnectorError =>
        (Scripted.tick (holding "stale")
           (expired (raises 400 InvalidUserPasswordError)) 0).1
          = Exc (UpdateFailed ClientConnectorError)
    | Raised e =>
        (Scripted.tick (holding "stale")
           (expired (raises 400 InvalidUserPasswordError)) 0).1 = Exc e
    | TimedOut => False
    end.
Proof.
  assert (GetCurrentThermostats (Some "stale") (Raised InvalidSessionIdError)
            ∈ calls (Scripted.tick (holding "stale")
                       (expired (raises 400 InvalidUserPasswordError)) 0).2)
    as Hin by (vm_compute; repeat constructor).
  split; [exact Hin|].
  exact (session_expired_absorbed_by_reauthentication _ _ _ _ _ _ Hin).
Defined.

(** The fetch reports the session expired and the connection drops
    during the forced credential exchange: what leaves the method is
    that exception, which is neither a normal return nor
    [ConfigEntryAuthFailed] nor [UpdateFailed]. *)
Lemma session_expired_outcome_counterexample :
  calls (Scripted.tick (holding "stale")
           (expired (raises 400 (OtherError "ServerDisconnectedError"))) 0).2
    = [GetCurrentThermostats (Some "stale") (Raised InvalidSessionIdError);
       GetSessionId "user@example.com" "secret"
         (Raised (OtherError "ServerDisconnectedError"))] ∧
  (Scripted.tick (holding "stale")
     (expired (raises 400 (OtherError "ServerDisconnectedError"))) 0).1
    = Exc (OtherError "ServerDisconnectedError") ∧
  ¬ ((∃ v, (Scripted.tick (holding "stale")
              (expired (raises 400 (OtherError "ServerDisconnectedError")))
              0).1 = Val v) ∨
     (∃ cause,
        (Scripted.tick (holding "stale")
           (expired (raises 400 (OtherError "ServerDisconnectedError"))) 0).1
          = Exc (ConfigEntryAuthFailed cause)) ∨
     (∃ cause,
        (Scripted.tick (holding "stale")
           (expired (raises 400 (OtherError "ServerDisconnectedError"))) 0).1
          = Exc (UpdateFailed cause))).
Proof.
  split; [reflexivity|]. split; [reflexivity|].
  intros [[v Hv] | [[cause Hc] | [cause Hc]]];
    [vm_compute in Hv | vm_compute in Hc | vm_compute in Hc]; discriminate.
Qed.

Lemma held_token_reused_by_next_tick_witness :
  GetSessionId "user@example.com" "secret" (Returned "token-1")
    ∈ calls (Scripted.tick fresh healthy 0).2 ∧
  (∃ u' p' held,
     _sessionid (self (Scripted.tick fresh healthy 0).2) = Some held ∧
     GetSessionId u' p' (Returned held)
       ∈ calls (Scripted.tick fresh healthy 0).2 ∧
     ∀ w' t', ∃ o rest,
       calls (Scripted.tick (self (Scripted.tick fresh healthy 0).2) w' t').2
         = GetCurrentThermostats (Some held) o :: rest) ∧
  (∀ c' w' t' u' p' o,
     head (calls (Scripted.tick c' w' t').2) = Some (GetSessionId u' p' o) →
     _sessionid c' = None).
Proof.
  assert (GetSessionId "user@example.com" "secret" (Returned "token-1")
            ∈ calls (Scripted.tick fresh healthy 0).2) as Hin
    by (vm_compute; repeat constructor).
  split; [exact Hin|].
  exact (held_token_reused_by_next_tick _ _ _ _ _ _ _ _ Hin).
Defined.

(** The scenario of the specification: no token, valid credentials, the
    fetch returns the snapshot of one device.  The tick returns that
    snapshot and leaves the token held; the next tick, a minute later,
    goes straight to the fetch with it. *)
Example first_tick_then_next :
  (Scripted.tick fresh healthy 0).1 = Val (Some device_1) ∧
  _sessionid (self (Scripted.tick fresh healthy 0).2) = Some "token-1" ∧
  calls (Scripted.tick (self (Scripted.tick fresh healthy 0).2)
           (api (Scripted.tick fresh healthy 0).2) 60000).2
    = [GetCurrentThermostats (Some "token-1") (Raised ApiError)].
Proof. repeat split; reflexivity. Qed.

Lemma reauthenticated_tick_returns_none_witness :
  calls (Scripted.tick (holding "stale") (expired (returns 400 "token-2")) 0).2
    = [] ++ [GetCurrentThermostats (Some "stale") (Raised InvalidSessionIdError);
             GetSessionId "user@example.com" "secret" (Returned "token-2")] ∧
  (Scripted.tick (holding "stale")
     (expired (returns 400 "token-2")) 0).1 = Val None.
Proof.
  split; [reflexivity|].
  apply (reauthenticated_tick_returns_none
           get_sessionid get_current_thermostats (holding "stale")
           (expired (returns 400 "token-2")) 0 [] (Some "stale")
           "user@example.com" "secret" "token-2"); reflexivity.
Defined.

Lemma fetch_service_error_retryable_witness :
  GetCurrentThermostats (Some "token-1") (Raised ClientConnectorError)
    ∈ calls (Scripted.tick (holding "token-1") unreachable 0).2 ∧
  (ClientConnectorError = ApiError ∨
   ClientConnectorError = ClientConnectorError) ∧
  (Scripted.tick (holding "token-1") unreachable 0).1
    = Exc (UpdateFailed ClientConnectorError) ∧
  last (calls (Scripted.tick (holding "token-1") unreachable 0).2)
    = Some (GetCurrentThermostats (Some "token-1")
              (Raised ClientConnectorError)) ∧
  _sessionid (self (Scripted.tick (holding "token-1") unreachable 0).2)
    = Some "token-1".
Proof.
  assert (GetCurrentThermostats (Some "token-1") (Raised ClientConnectorError)
            ∈ calls (Scripted.tick (holding "token-1") unreachable 0).2)
    as Hin by (vm_compute; repeat constructor).
  split; [exact Hin|]. split; [right; reflexivity|].
  exact (fetch_service_error_retryable _ _ _ _ _ _ _ Hin
           (or_intror eq_refl)).
Defined.

Lemma exchange_service_error_retryable_witness :
  head (calls (Scripted.tick fresh failing 0).2)
    = Some (GetSessionId "user@example.com" "secret" (Raised ApiError)) ∧
  (ApiError = ApiError ∨ ApiError = ClientConnectorError) ∧
  (Scripted.tick fresh failing 0).1 = Exc (UpdateFailed ApiError) ∧
  fetch_count (calls (Scripted.tick fresh failing 0).2) = 0%nat ∧
  _sessionid (self (Scripted.tick fresh failing 0).2) = None.
Proof.
  split; [reflexivity|]. split; [left; reflexivity|].
  apply (exchange_service_error_retryable get_sessionid get_current_thermostats fresh failing 0 "user@example.com" "secret" ApiError);
    [reflexivity | left; reflexivity].
Defined.

Lemma unnamed_exception_passes_through_witness :
  last (calls (Scripted.tick (holding "token-1") dropping 0).2)
    = Some (GetCurrentThermostats (Some "token-1")
              (Raised (OtherError "ServerDisconnectedError"))) ∧
  raised_by (Reading:=Z)
    (GetCurrentThermostats (Some "token-1")
       (Raised (OtherError "ServerDisconnectedError")))
    = Some (OtherError "ServerDisconnectedError") ∧
  OtherError "ServerDisconnectedError" ≠ InvalidSessionIdError ∧
  OtherError "ServerDisconnectedError" ≠ InvalidUserPasswordError ∧
  OtherError "ServerDisconnectedError" ≠ ApiError ∧
  OtherError "ServerDisconnectedError" ≠ ClientConnectorError ∧
  (Scripted.tick (holding "token-1") dropping 0).1 = Exc (OtherError "ServerDisconnectedError").
Proof.
  split; [reflexivity|]. split; [reflexivity|]. split; [discriminate|]. split; [discriminate|]. split; [discriminate|]. split; [discriminate|].
  apply (unnamed_exception_passes_through get_sessionid get_current_thermostats (holding "token-1") dropping 0
           (GetCurrentThermostats (Some "token-1")
              (Raised (OtherError "ServerDisconnectedError")))
           (OtherError "ServerDisconnectedError"));
    first [reflexivity | discriminate].
Defined.

Lemma token_never_given_up_witness :
  _sessionid (holding "stale") = Some "stale" ∧
  (_sessionid (self (Scripted.tick (holding "stale") (expired (returns 400 "token-2")) 0).2) = Some "stale" ∨
   ∃ u p new,
     GetSessionId u p (Returned new) ∈ calls (Scripted.tick (holding "stale") (expired (returns 400 "token-2")) 0).2 ∧
     _sessionid (self (Scripted.tick (holding "stale") (expired (returns 400 "token-2")) 0).2) = Some new).
Proof.
  split; [reflexivity|].
  apply (token_never_given_up get_sessionid get_current_thermostats (holding "stale") (expired (returns 400 "token-2")) 0 "stale");
    reflexivity.
Defined.

Lemma fetch_given_held_token_witness :
  GetCurrentThermostats (Some "token-1") (Returned device_1)
    ∈ calls (Scripted.tick fresh healthy 0).2 ∧
  ∃ held,
    Some "token-1" = Some held ∧
    (_sessionid fresh = Some held ∨
     _sessionid fresh = None ∧
     ∃ u p, head (calls (Scripted.tick fresh healthy 0).2)
              = Some (GetSessionId u p (Returned held))).
Proof.
  assert (GetCurrentThermostats (Some "token-1") (Returned device_1)
            ∈ calls (Scripted.tick fresh healthy 0).2) as Hin
    by (vm_compute; repeat constructor).
  split; [exact Hin|].
  exact (fetch_given_held_token _ _ _ _ _ _ _ Hin).
Defined.

Lemma snapshot_comes_from_last_call_witness :
  (Scripted.tick fresh healthy 0).1 = Val (Some device_1) ∧
  (∃ held,
     last (calls (Scripted.tick fresh healthy 0).2)
       = Some (GetCurrentThermostats (Some held) (Returned device_1)) ∧
     _sessionid (self (Scripted.tick fresh healthy 0).2) = Some held).
Proof.
  split; [reflexivity|].
  apply (snapshot_comes_from_last_call get_sessionid get_current_thermostats fresh healthy 0 device_1);
    reflexivity.
Defined.

Lemma none_only_after_reauthentication_witness :
  (Scripted.tick (holding "stale") (expired (returns 400 "token-2")) 0).1 = Val None ∧
  (∃ pre ev u p new,
     calls (Scripted.tick (holding "stale") (expired (returns 400 "token-2")) 0).2 = pre ++ [ev; GetSessionId u p (Returned new)] ∧
     raised_by ev = Some InvalidSessionIdError ∧
     _sessionid (self (Scripted.tick (holding "stale") (expired (returns 400 "token-2")) 0).2) = Some new).
Proof.
  split; [reflexivity|].
  apply (none_only_after_reauthentication get_sessionid get_current_thermostats (holding "stale") (expired (returns 400 "token-2")) 0);
    reflexivity.
Defined.

Lemma auth_failure_only_from_invalid_credentials_witness :
  (Scripted.tick fresh wrong_secret 0).1 = Exc (ConfigEntryAuthFailed InvalidUserPasswordError) ∧
  (∃ ev,
     last (calls (Scripted.tick fresh wrong_secret 0).2) = Some ev ∧
     (raised_by ev = Some InvalidUserPasswordError ∧
        InvalidUserPasswordError = InvalidUserPasswordError ∨
      raised_by ev
        = Some (ConfigEntryAuthFailed InvalidUserPasswordError))).
Proof.
  split; [reflexivity|].
  apply (auth_failure_only_from_invalid_credentials get_sessionid get_current_thermostats fresh wrong_secret 0 InvalidUserPasswordError);
    reflexivity.
Defined.

Lemma expired_token_retried_by_next_tick_witness :
  calls (Scripted.tick (holding "stale") (expired (raises 400 ApiError)) 0).2
    = [] ++ [GetCurrentThermostats (Some "stale") (Raised InvalidSessionIdError);
             GetSessionId "user@example.com" "secret" (Raised ApiError)] ∧
  (∀ w' t', ∃ o rest,
     calls (Scripted.tick (self (Scripted.tick (holding "stale") (expired (raises 400 ApiError)) 0).2) w' t').2
       = GetCurrentThermostats (Some "stale") o :: rest).
Proof.
  split; [reflexivity|].
  apply (expired_token_retried_by_next_tick get_sessionid get_current_thermostats (holding "stale") (expired (raises 400 ApiError)) 0 [] (Some "stale")
           "user@example.com" "secret" ApiError);
    reflexivity.
Defined.

Lemma snapshot_within_timeout_witness :
  (Scripted.tick fresh healthy 0).1 = Val (Some device_1) ∧
  0 ≤ now (Scripted.tick fresh healthy 0).2 ≤ 0 + seconds TIMEOUT_SECONDS.
Proof.
  split; [reflexivity|].
  apply (snapshot_within_timeout get_sessionid get_current_thermostats fresh healthy 0 device_1);
    reflexivity.
Defined.

End Scenarios.

(** ** The registry properties on a household with one account *)

Section Household.

Import Integration.

Lemma setup_registers_entry_witness :
  entry_data account !! "username" = Some "user@example.com" ∧
  entry_data account !! "password" = Some "secret" ∧
  refresh_succeeds (__init__ "user@example.com" "secret")
    = Val (set_sessionid (Some "token-1")
             (__init__ "user@example.com" "secret")) ∧
  (setup account "client" refresh_succeeds started).1 = Val true ∧
  lookup_entry (setup account "client" refresh_succeeds started).2
               (entry_id account)
    = Some {| api := "client";
              coordinator := set_sessionid (Some "token-1")
                               (__init__ "user@example.com" "secret") |} ∧
  requests (setup account "client" refresh_succeeds started).2
    = requests started
      ++ [FirstRefresh (__init__ "user@example.com" "secret");
          SetupPlatforms (entry_id account) PLATFORMS;
          AddUpdateListener (entry_id account)].
Proof.
  split; [reflexivity|]. split; [reflexivity|]. split; [reflexivity|].
  apply (setup_registers_entry "schluter" "username" "password" started account
           "client" refresh_succeeds "user@example.com" "secret"
           (set_sessionid (Some "token-1")
              (__init__ "user@example.com" "secret")));
    reflexivity.
Defined.

Lemma setup_missing_credentials_witness :
  (entry_data account_without_password !! "username" = None ∨
   entry_data account_without_password !! "password" = None) ∧
  setup account_without_password "client" refresh_succeeds started
    = (Exc KeyError, started).
Proof.
  split; [right; reflexivity|].
  apply (setup_missing_credentials "schluter" "username" "password").
  right; reflexivity.
Defined.


Lemma unload_removes_entry_witness :
  lookup_entry running (entry_id account)
    = Some {| api := "client";
              coordinator := set_sessionid (Some "token-1")
                               (__init__ "user@example.com" "secret") |} ∧
  (unload account (Val true) running).1 = Val true ∧
  lookup_entry (unload account (Val true) running).2 (entry_id account)
    = None ∧
  (∀ id, id ≠ entry_id account →
     lookup_entry (unload account (Val true) running).2 id
       = lookup_entry running id) ∧
  (∀ domain, domain ≠ "schluter" →
     data (unload account (Val true) running).2 !! domain
       = data running !! domain).
Proof.
  split; [reflexivity|].
  apply (unload_removes_entry "schluter" running account
           {| api := "client";
              coordinator := set_sessionid (Some "token-1")
                               (__init__ "user@example.com" "secret") |}).
  reflexivity.
Defined.

Lemma unload_refused_keeps_registry_witness :
  Val false ≠ Val true ∧
  (unload account (Val false) running).1 = Val false ∧
  data (unload account (Val false) running).2 = data running.
Proof.
  split; [discriminate|].
  apply (unload_refused_keeps_registry "schluter" running account (Val false)).
  discriminate.
Defined.

Lemma unload_unregistered_raises_witness :
  lookup_entry started (entry_id account) = None ∧
  (unload account (Val true) started).1 = Exc KeyError ∧
  data (unload account (Val true) started).2 = data started.
Proof.
  split; [reflexivity|].
  apply (unload_unregistered_raises "schluter" started account).
  reflexivity.
Defined.


End Household.
